(** * Subprocess program launcher

    A shallow embedding of [src/targets/node/subprocessProgramLauncher.ts]:
    the capability gate [canLaunch], the argument normalizer
    [formatArguments], the stdio wiring done by [launchProgram]
    ([captureStdio] / [discardStdio]) and the reaction of the discard
    router to the events of the child process.

    JavaScript strings are [string]s, [Buffer]s are lists of bytes, the
    [dap.output] sink is the list of the events sent so far, and the mutable
    variables captured by the closures of [discardStdio] are fields of an
    explicit state record. *)

From Stdlib Require Import List Strings.String Strings.Ascii Strings.Byte Bool ZArith Lia.
From Stdlib Require Import Numbers.DecimalString.
From Stdlib Require Numbers.DecimalPos Numbers.DecimalZ.
Import ListNotations.

Local Open Scope string_scope.
Local Open Scope list_scope.

(** ** String primitives used by the source *)

Module Str.

(** The character [U+0022]. *)
Definition dquote : ascii := "034"%char.

(** [s.includes(p)] *)
Fixpoint includes (s p : string) : bool :=
  String.prefix p s
  || match s with
     | EmptyString => false
     | String _ s' => includes s' p
     end.

(** [s.endsWith(suffix)] *)
Definition endsWith (s suffix : string) : bool :=
  let n := String.length s in
  let m := String.length suffix in
  (m <=? n)%nat && String.eqb (String.substring (n - m) m s) suffix.

(** The template literal [`"${a}"`]. *)
Definition quoted (a : string) : string :=
  String dquote (a ++ String dquote EmptyString).

(** [parts.join(sep)] *)
Definition join (sep : string) (parts : list string) : string :=
  String.concat sep parts.

Definition hasSpace (s : string) : bool := includes s " ".

End Str.

(** ** The argument normalizer *)

Record Invocation := mkInvocation {
  executable : string;
  args : list string;
  shell : bool;
  cwd : string
}.

Section Normalizer.

(** [process.platform === 'win32'] *)
Variable win32 : bool.

(** [urlUtils.platformPathToPreferredCase], imported from
    [../../common/urlUtils]. *)
Variable platformPathToPreferredCase : string -> string.

(** Lines 123-131: the rewriting done on Windows before the space test. *)
Definition rewritten (executable0 : string) (args0 : list string)
    (cwd0 : string) : string * list string * string :=
  if win32 then
    let executable1 := platformPathToPreferredCase executable0 in
    let cwd1 := platformPathToPreferredCase cwd0 in
    if Str.endsWith executable1 ".ps1"
    then ("powershell.exe", "-File" :: executable1 :: args0, cwd1)
    else (executable1, args0, cwd1)
  else (executable0, args0, cwd0).

(** Lines 137-148: the loop over the arguments, with its two accumulators
    [output] and [foundArgWithSpace]. *)
Fixpoint quoteLoop (rest : list string) (output : list string)
    (foundArgWithSpace : bool) : list string * bool :=
  match rest with
  | [] => (output, foundArgWithSpace)
  | a :: rest' =>
      if Str.includes a " "
      then quoteLoop rest' (output ++ [Str.quoted a]) true
      else quoteLoop rest' (output ++ [a]) foundArgWithSpace
  end.

Definition formatArguments (executable0 : string) (args0 : list string)
    (cwd0 : string) : Invocation :=
  let '(executable1, args1, cwd1) := rewritten executable0 args0 cwd0 in
  if negb win32 || negb (Str.includes executable1 " ") then
    mkInvocation executable1 args1 false cwd1
  else
    let '(output, foundArgWithSpace) := quoteLoop args1 [] false in
    if foundArgWithSpace
    then mkInvocation (Str.quoted executable1) output true cwd1
    else mkInvocation executable1 args1 false cwd1.

End Normalizer.

(** [c.toUpperCase()] for an ASCII character. *)
Definition upperAscii (c : ascii) : ascii :=
  let n := nat_of_ascii c in
  if ((97 <=? n) && (n <=? 122))%nat then ascii_of_nat (n - 32) else c.

(** Modelled from the spec: [urlUtils.platformPathToPreferredCase] lives in
    [../../common/urlUtils], which is not among the sources; the spec
    describes it as the rewrite of a path to the platform's preferred
    path-casing convention.  On Windows that convention is an upper-case
    drive letter: a path that starts with [<letter>:] gets its first
    character in upper case, any other path is returned as it is.  The
    theorems below hold for every path-casing function; this one is the
    instance used at concrete inputs. *)
Definition platformPathToPreferredCase_win32 (p : string) : string :=
  match p with
  | String c (String ":" rest) => String (upperAscii c) (String ":" rest)
  | _ => p
  end.

(** ** Configuration and sink *)

Module Config.

(** Modelled from the spec: the type of [INodeLaunchConfiguration.console]
    is declared in [../../configuration], which is not among the sources;
    the spec lists the variants internal-console, integrated-terminal and
    external-terminal.  Its values are string literals. *)
Inductive ConsoleMode := internalConsole | integratedTerminal | externalTerminal.

Definition literal (c : ConsoleMode) : string :=
  match c with
  | internalConsole => "internalConsole"
  | integratedTerminal => "integratedTerminal"
  | externalTerminal => "externalTerminal"
  end.

(** Modelled from the spec: the enum [OutputSource] is declared in
    [../../configuration], which is not among the sources; the spec lists
    the variants console and capture of the output-capture mode. *)
Inductive OutputSource := Console | Capture.

Definition OutputSource_eqb (a b : OutputSource) : bool :=
  match a, b with
  | Console, Console | Capture, Capture => true
  | _, _ => false
  end.

Record INodeLaunchConfiguration := mkConfig {
  console : ConsoleMode;
  cwd : string;
  outputCapture : OutputSource;
  killBehavior : string
}.

End Config.

(** An event handed to [dap.output]. *)
Record OutputEvent := mkOutput {
  category : string;
  output : string
}.

(** The sink: the events sent so far, oldest first. *)
Definition Dap := list OutputEvent.

Definition dap_output (dap : Dap) (ev : OutputEvent) : Dap := dap ++ [ev].

(** ** Buffers *)

Definition Buffer := list byte.

Module Buf.

Fixpoint startsWith (b p : Buffer) : bool :=
  match p, b with
  | [], _ => true
  | _ :: _, [] => false
  | x :: p', y :: b' => Byte.eqb x y && startsWith b' p'
  end.

(** [b.includes(p)] *)
Fixpoint includes (b p : Buffer) : bool :=
  startsWith b p
  || match b with
     | [] => false
     | _ :: b' => includes b' p
     end.

(** [Buffer.from(s)] for a string of ASCII characters. *)
Definition from (s : string) : Buffer := list_byte_of_string s.

(** [Buffer.concat(chunks)] *)
Definition concat (chunks : list Buffer) : Buffer := List.concat chunks.

End Buf.

(** ** The child process and its listeners *)

(** The listeners this file registers for ['data']. *)
Inductive DataListener :=
| ErrLineReader
| ConsumeStdStreamData (stream : string).

(** The listeners this file registers on the child itself. *)
Inductive ProcessListener := OnError | OnExit.

Definition DataListener_eqb (a b : DataListener) : bool :=
  match a, b with
  | ErrLineReader, ErrLineReader => true
  | ConsumeStdStreamData s, ConsumeStdStreamData t => String.eqb s t
  | _, _ => false
  end.

Definition ProcessListener_eqb (a b : ProcessListener) : bool :=
  match a, b with
  | OnError, OnError | OnExit, OnExit => true
  | _, _ => false
  end.

Record Readable := mkReadable {
  dataListeners : list DataListener;
  flowing : bool
}.

Record ChildProcess := mkChild {
  stdout : Readable;
  stderr : Readable;
  errorListeners : list ProcessListener;
  exitListeners : list ProcessListener
}.

(** The child returned by [spawn]: nothing is registered yet. *)
Definition spawn : ChildProcess :=
  mkChild (mkReadable [] false) (mkReadable [] false) [] [].

Module Emitter.

(** [stream.on('data', l)] *)
Definition on_data (l : DataListener) (r : Readable) : Readable :=
  mkReadable (dataListeners r ++ [l]) (flowing r).

(** Removes the first occurrence of [l]. *)
Fixpoint remove1 (l : DataListener) (ls : list DataListener) : list DataListener :=
  match ls with
  | [] => []
  | x :: ls' => if DataListener_eqb x l then ls' else x :: remove1 l ls'
  end.

(** [stream.removeListener('data', l)]: at most one instance of [l] is
    removed, the most recently added one. *)
Definition removeListener (l : DataListener) (r : Readable) : Readable :=
  mkReadable (rev (remove1 l (rev (dataListeners r)))) (flowing r).

(** [stream.resume()] *)
Definition resume (r : Readable) : Readable :=
  mkReadable (dataListeners r) true.

Definition listens (l : DataListener) (r : Readable) : bool :=
  existsb (DataListener_eqb l) (dataListeners r).

Definition handles (l : ProcessListener) (ls : list ProcessListener) : bool :=
  existsb (ProcessListener_eqb l) ls.

End Emitter.

Definition set_stdout (r : Readable) (c : ChildProcess) : ChildProcess :=
  mkChild r (stderr c) (errorListeners c) (exitListeners c).

Definition set_stderr (r : Readable) (c : ChildProcess) : ChildProcess :=
  mkChild (stdout c) r (errorListeners c) (exitListeners c).

(** [child.on('error', ...)] *)
Definition on_error (l : ProcessListener) (c : ChildProcess) : ChildProcess :=
  mkChild (stdout c) (stderr c) (errorListeners c ++ [l]) (exitListeners c).

(** [child.on('exit', ...)] *)
Definition on_exit (l : ProcessListener) (c : ChildProcess) : ChildProcess :=
  mkChild (stdout c) (stderr c) (errorListeners c) (exitListeners c ++ [l]).

(** ** The capture router *)

Definition captureStdio (dap : Dap) (child : ChildProcess) : Dap * ChildProcess :=
  let child := set_stdout (Emitter.on_data (ConsumeStdStreamData "stdout") (stdout child)) child in
  let child := set_stderr (Emitter.on_data (ConsumeStdStreamData "stderr") (stderr child)) child in
  let child := set_stdout (Emitter.resume (stdout child)) child in
  let child := set_stderr (Emitter.resume (stderr child)) child in
  (dap, child).

(** ** The discard router *)

(** The [Error] passed to the ['error'] listener. *)
Record JsError := mkError {
  stack : option string;
  message : string
}.

(** [err.stack || err.message]: an absent or empty [stack] is falsy. *)
Definition stackOrMessage (err : JsError) : string :=
  match stack err with
  | Some s => if String.eqb s EmptyString then message err else s
  | None => message err
  end.

(** The text of an integer inside a template literal. *)
Definition numberToString (n : Z) : string :=
  NilZero.string_of_int (Z.to_int n).

Definition crlf : string := String "013" (String "010" EmptyString).

(** The variables shared by the closures of [discardStdio]: the sink, the
    child, and [preLaunchBuffer], which is [None] once it has been set to
    [undefined]. *)
Record DiscardStdio := mkDiscard {
  dap : Dap;
  child : ChildProcess;
  preLaunchBuffer : option (list Buffer)
}.

Definition delimiter : Buffer := Buf.from "Debugger attached.".

Section Discard.

(** [Buffer.prototype.toString()], the decoding of bytes as text. *)
Variable toString : Buffer -> string.

Definition dumpFilter (st : DiscardStdio) : DiscardStdio :=
  match preLaunchBuffer st with
  | Some chunks =>
      mkDiscard
        (dap_output (dap st) (mkOutput "stderr" (toString (Buf.concat chunks))))
        (child st) (preLaunchBuffer st)
  | None => st
  end.

Definition errLineReader (data : Buffer) (st : DiscardStdio) : DiscardStdio :=
  if Buf.includes data delimiter then
    mkDiscard (dap st)
      (set_stderr (Emitter.removeListener ErrLineReader (stderr (child st))) (child st))
      None
  else
    match preLaunchBuffer st with
    | Some chunks => mkDiscard (dap st) (child st) (Some (chunks ++ [data]))
    | None => st
    end.

(** The ['error'] listener, lines 98-101. *)
Definition onError (err : JsError) (st : DiscardStdio) : DiscardStdio :=
  let st := dumpFilter st in
  mkDiscard (dap_output (dap st) (mkOutput "stderr" (stackOrMessage err)))
    (child st) (preLaunchBuffer st).

Definition exitReport (code : Z) : OutputEvent :=
  mkOutput "stderr" ("Process exited with code " ++ numberToString code ++ crlf).

(** The ['exit'] listener, lines 103-111. *)
Definition onExit (code : option Z) (st : DiscardStdio) : DiscardStdio :=
  match code with
  | Some n =>
      if (n >? 0)%Z then
        let st := dumpFilter st in
        mkDiscard (dap_output (dap st) (exitReport n)) (child st) (preLaunchBuffer st)
      else st
  | None => st
  end.

Definition discardStdio (dap0 : Dap) (child0 : ChildProcess) : DiscardStdio :=
  let child := set_stderr (Emitter.on_data ErrLineReader (stderr child0)) child0 in
  let child := on_error OnError child in
  let child := on_exit OnExit child in
  let child := set_stdout (Emitter.resume (stdout child)) child in
  let child := set_stderr (Emitter.resume (stderr child)) child in
  mkDiscard dap0 child (Some []).

(** *** Events of the child, as the router sees them *)

Inductive ChildEvent :=
| StdoutData (data : Buffer)
| StderrData (data : Buffer)
| ErrorEvent (err : JsError)
| ExitEvent (code : option Z).

(** One event is delivered: each closure of the router runs if it is
    registered for the event.  Nothing of the router listens to stdout. *)
Definition deliver (ev : ChildEvent) (st : DiscardStdio) : DiscardStdio :=
  match ev with
  | StdoutData _ => st
  | StderrData data =>
      if Emitter.listens ErrLineReader (stderr (child st))
      then errLineReader data st else st
  | ErrorEvent err =>
      if Emitter.handles OnError (errorListeners (child st))
      then onError err st else st
  | ExitEvent code =>
      if Emitter.handles OnExit (exitListeners (child st))
      then onExit code st else st
  end.

Definition run (evs : list ChildEvent) (st : DiscardStdio) : DiscardStdio :=
  fold_left (fun s ev => deliver ev s) evs st.

(** The router is in the state Buffering while the buffer is present. *)
Definition buffering (st : DiscardStdio) : bool :=
  match preLaunchBuffer st with Some _ => true | None => false end.

(** What an event reports to the sink besides a flush of the buffer. *)
Definition report (ev : ChildEvent) : list OutputEvent :=
  match ev with
  | ErrorEvent err => [mkOutput "stderr" (stackOrMessage err)]
  | ExitEvent (Some n) => if (n >? 0)%Z then [exitReport n] else []
  | _ => []
  end.

Definition reports (evs : list ChildEvent) : list OutputEvent :=
  flat_map report evs.

(** Whether a chunk of stderr carries the attach marker. *)
Definition marked (ev : ChildEvent) : bool :=
  match ev with
  | StderrData data => Buf.includes data delimiter
  | _ => false
  end.

End Discard.

(** ** The launcher *)

Definition canLaunch (args : Config.INodeLaunchConfiguration) : bool :=
  String.eqb (Config.literal (Config.console args)) "internalConsole".

(** What [launchProgram] leaves behind: the sink and the wired child, with
    the closure state of the discard router when it is the one wired. *)
Inductive Wired :=
| Capturing (dap : Dap) (child : ChildProcess)
| Discarding (st : DiscardStdio).

Definition wiredChild (w : Wired) : ChildProcess :=
  match w with
  | Capturing _ c => c
  | Discarding st => child st
  end.

Definition wiredDap (w : Wired) : Dap :=
  match w with
  | Capturing d _ => d
  | Discarding st => dap st
  end.

Section Launcher.

Variable win32 : bool.
Variable platformPathToPreferredCase : string -> string.

(** [getNodeLaunchArgs], imported from [./processLauncher]. *)
Variable getNodeLaunchArgs : Config.INodeLaunchConfiguration -> list string.

Definition newline : string := String "010" EmptyString.

Definition launchProgram (binary : string)
    (config : Config.INodeLaunchConfiguration) (dap0 : Dap) : Invocation * Wired :=
  let inv := formatArguments win32 platformPathToPreferredCase binary
               (getNodeLaunchArgs config) (Config.cwd config) in
  let dap1 := dap_output dap0
                (mkOutput "console"
                   (Str.join " " (executable inv :: args inv) ++ newline)) in
  let child := spawn in
  (inv,
   if Config.OutputSource_eqb (Config.outputCapture config) Config.Console
   then Discarding (discardStdio dap1 child)
   else let '(d, c) := captureStdio dap1 child in Capturing d c).

End Launcher.

(** The capture router is attached to a child when its two trackers
    listen. *)
Definition captureAttached (c : ChildProcess) : bool :=
  Emitter.listens (ConsumeStdStreamData "stdout") (stdout c)
  && Emitter.listens (ConsumeStdStreamData "stderr") (stderr c).

(** The discard router is attached to a child when its three closures are
    registered. *)
Definition discardAttached (c : ChildProcess) : bool :=
  Emitter.listens ErrLineReader (stderr c)
  && Emitter.handles OnError (errorListeners c)
  && Emitter.handles OnExit (exitListeners c).

(** All the listeners of a child: stdout data, stderr data, error, exit. *)
Definition listenersOf (c : ChildProcess)
  : list DataListener * list DataListener * list ProcessListener * list ProcessListener :=
  (dataListeners (stdout c), dataListeners (stderr c),
   errorListeners c, exitListeners c).

(** A decoding of bytes as text for concrete inputs: one character per
    byte, which is what [toString] gives on ASCII bytes. *)
Definition latin1 (b : Buffer) : string := string_of_list_byte b.

(** ** Auxiliary definitions for the statements *)

(** What the loop of [formatArguments] pushes for one argument. *)
Definition quoteIfSpace (a : string) : string :=
  if Str.includes a " " then Str.quoted a else a.

(** The output event of a flush of [chunks]. *)
Definition flushEvent (toString : Buffer -> string) (chunks : list Buffer) : OutputEvent :=
  mkOutput "stderr" (toString (Buf.concat chunks)).

(** What a call of [dumpFilter] sends to the sink in state [st]. *)
Definition flushed (toString : Buffer -> string) (st : DiscardStdio) : list OutputEvent :=
  match preLaunchBuffer st with
  | Some chunks => [flushEvent toString chunks]
  | None => []
  end.

(** The listeners of a child on which [discardStdio] ran: the two process
    listeners stay, and [errLineReader] listens exactly while the buffer is
    present. *)
Definition routed (st : DiscardStdio) : Prop :=
  errorListeners (child st) = [OnError]
  /\ exitListeners (child st) = [OnExit]
  /\ dataListeners (stderr (child st))
     = (if buffering st then [ErrLineReader] else []).

(** The state of the discard router after [trace], on a fresh child. *)
Definition after (toString : Buffer -> string) (dap0 : Dap)
    (trace : list ChildEvent) : DiscardStdio :=
  run toString trace (discardStdio dap0 spawn).

(** The chunks of stderr of a trace, in arrival order. *)
Definition stderrChunks (evs : list ChildEvent) : list Buffer :=
  flat_map (fun ev => match ev with StderrData data => [data] | _ => [] end) evs.

(** An event of category [stderr]. *)
Definition isStderr (ev : OutputEvent) : Prop := category ev = "stderr".

(** * Properties *)

(** ** The argument normalizer *)

(** The text built by the template literals of lines 143 and 151: the
    character of code 34, the text, the character of code 34. *)
Lemma quoted_spelled (a : string) :
  Str.quoted a = (String "034" EmptyString ++ a ++ String "034" EmptyString)%string.
Proof. reflexivity. Qed.

Lemma quoteIfSpace_spelled (a : string) :
  quoteIfSpace a
  = if Str.includes a " "
    then (String "034" EmptyString ++ a ++ String "034" EmptyString)%string
    else a.
Proof. reflexivity. Qed.

Section NormalizerFacts.

Variable f : string -> string.

Lemma quoteLoop_spec (rest output : list string) (found : bool) :
  quoteLoop rest output found
  = (output ++ map quoteIfSpace rest, found || existsb Str.hasSpace rest).
Proof.
  revert output found.
  induction rest as [|a rest IH]; intros output found; simpl.
  - now rewrite app_nil_r, orb_false_r.
  - unfold quoteIfSpace, Str.hasSpace.
    destruct (Str.includes a " ") eqn:Ha; rewrite IH, <- app_assoc; simpl.
    + now rewrite orb_true_r.
    + reflexivity.
Qed.

Lemma map_quoteIfSpace_id (l : list string) :
  existsb Str.hasSpace l = false -> map quoteIfSpace l = l.
Proof.
  induction l as [|a l IH]; simpl; [reflexivity|].
  intros H. apply orb_false_iff in H as [Ha Hl].
  rewrite (IH Hl). unfold quoteIfSpace. unfold Str.hasSpace in Ha.
  now rewrite Ha.
Qed.

(** On the slow path the result is decided by the arguments alone. *)
Lemma formatArguments_slow_path (exe0 : string) (args0 : list string) (cwd0 : string)
    (exe1 : string) (args1 : list string) (cwd1 : string) :
  rewritten true f exe0 args0 cwd0 = (exe1, args1, cwd1) ->
  Str.includes exe1 " " = true ->
  formatArguments true f exe0 args0 cwd0
  = if existsb Str.hasSpace args1
    then mkInvocation (Str.quoted exe1) (map quoteIfSpace args1) true cwd1
    else mkInvocation exe1 args1 false cwd1.
Proof.
  intros Hrw Hsp. unfold formatArguments. rewrite Hrw, Hsp. simpl.
  rewrite quoteLoop_spec. reflexivity.
Qed.

(** C1: on Windows, when the executable path after the rewriting of lines
    123-131 contains a space, every argument with a space comes back
    wrapped in double quotes (the character of code 34 before it and after
    it) and the others as they are; the result has [shell = true]
    together with the executable wrapped in double quotes exactly when
    some argument contains a space; and when none does, the executable is
    left unquoted, the arguments are returned unchanged and
    [shell = false]. *)
Theorem formatArguments_windows_space (exe0 : string) (args0 : list string)
    (cwd0 : string) (exe1 : string) (args1 : list string) (cwd1 : string) :
  rewritten true f exe0 args0 cwd0 = (exe1, args1, cwd1) ->
  Str.includes exe1 " " = true ->
  let r := formatArguments true f exe0 args0 cwd0 in
  let q := String "034" EmptyString in
  args r = map (fun a => if Str.includes a " " then (q ++ a ++ q)%string else a) args1
  /\ ((shell r = true /\ executable r = (q ++ exe1 ++ q)%string)
      <-> exists a, In a args1 /\ Str.includes a " " = true)
  /\ ((forall a, In a args1 -> Str.includes a " " = false)
      -> executable r = exe1 /\ args r = args1 /\ shell r = false).
Proof.
  intros Hrw Hsp r q. subst r q.
  rewrite (formatArguments_slow_path _ _ _ _ _ _ Hrw Hsp).
  rewrite <- (map_ext _ _ quoteIfSpace_spelled args1), <- (quoted_spelled exe1).
  destruct (existsb Str.hasSpace args1) eqn:Hex; simpl.
  - apply existsb_exists in Hex as [a [Hin Ha]].
    split; [reflexivity|]. split.
    + split; [intros _; now exists a | now intros _].
    + intros Hnone. unfold Str.hasSpace in Ha.
      rewrite (Hnone a Hin) in Ha. discriminate.
  - split; [now rewrite map_quoteIfSpace_id|]. split.
    + split; [intros [H _]; discriminate|].
      intros [a [Hin Ha]].
      assert (existsb Str.hasSpace args1 = true) as Hc
        by (apply existsb_exists; now exists a).
      congruence.
    + now intros _.
Qed.

(** C7, as amended: on Windows, when the executable path in the
    platform's preferred case ends in [.ps1], the result runs
    [powershell.exe] on the arguments [-File], that case-rewritten path,
    and then the original arguments in their order; no shell is used. *)
Theorem formatArguments_ps1 (exe : string) (args0 : list string) (cwd0 : string) :
  Str.endsWith (f exe) ".ps1" = true ->
  formatArguments true f exe args0 cwd0
  = mkInvocation "powershell.exe" ("-File" :: f exe :: args0) false (f cwd0).
Proof.
  intros Hps. unfold formatArguments, rewritten. rewrite Hps. reflexivity.
Qed.

(** C8: off Windows the executable, the arguments and the working
    directory come back as they were given, and [shell] is false. *)
Theorem formatArguments_not_windows (exe : string) (args0 : list string)
    (cwd0 : string) :
  formatArguments false f exe args0 cwd0 = mkInvocation exe args0 false cwd0.
Proof. reflexivity. Qed.

End NormalizerFacts.

(** The second example of the spec for C1, with one more argument: the
    argument with a space and the executable come back between two
    characters of code 34, the other argument as it is. *)
Lemma formatArguments_windows_space_witness :
  let r := formatArguments true platformPathToPreferredCase_win32
             "C:\a b\x.exe" ["my arg"; "--flag"] "C:\w" in
  args r = [String "034" ("my arg" ++ String "034" EmptyString); "--flag"]
  /\ shell r = true
  /\ executable r = String "034" ("C:\a b\x.exe" ++ String "034" EmptyString).
Proof.
  destruct (formatArguments_windows_space platformPathToPreferredCase_win32
              "C:\a b\x.exe" ["my arg"; "--flag"] "C:\w"
              "C:\a b\x.exe" ["my arg"; "--flag"] "C:\w"
              eq_refl eq_refl) as (Hargs & Hshell & _).
  split; [exact Hargs|].
  apply Hshell. exists "my arg". split; [now left | reflexivity].
Defined.

Example formatArguments_flag_example :
  formatArguments true platformPathToPreferredCase_win32 "C:\a b\x.exe" ["--flag"] "C:\w"
  = mkInvocation "C:\a b\x.exe" ["--flag"] false "C:\w".
Proof. reflexivity. Qed.

Example formatArguments_my_arg_example :
  formatArguments true platformPathToPreferredCase_win32 "C:\a b\x.exe" ["my arg"] "C:\w"
  = mkInvocation (String "034" ("C:\a b\x.exe" ++ String "034" EmptyString))
      [String "034" ("my arg" ++ String "034" EmptyString)] true "C:\w".
Proof. reflexivity. Qed.

Lemma formatArguments_ps1_witness :
  Str.endsWith (platformPathToPreferredCase_win32 "c:\scripts\run.ps1") ".ps1" = true
  /\ formatArguments true platformPathToPreferredCase_win32 "c:\scripts\run.ps1" ["--watch"] "c:\scripts"
     = mkInvocation "powershell.exe" ["-File"; "C:\scripts\run.ps1"; "--watch"]
         false "C:\scripts".
Proof.
  split; [reflexivity|].
  apply (formatArguments_ps1 platformPathToPreferredCase_win32 "c:\scripts\run.ps1" ["--watch"] "c:\scripts").
  reflexivity.
Defined.

(** C7 as stated fails: the path handed to [-File] is the case-rewritten
    one, which differs from the path that was given when the drive letter
    was in lower case. *)
Lemma formatArguments_ps1_original_path_counterexample :
  Str.endsWith "c:\scripts\run.ps1" ".ps1" = true
  /\ args (formatArguments true platformPathToPreferredCase_win32 "c:\scripts\run.ps1" ["--watch"] "c:\scripts")
     <> ["-File"; "c:\scripts\run.ps1"; "--watch"].
Proof.
  split; [reflexivity|]. vm_compute. discriminate.
Qed.

(** ** The launcher *)

(** C9: [canLaunch] is true exactly for the console mode
    [internalConsole] and false for the two other modes; being a function
    of the configuration alone, it has no effect. *)
Theorem canLaunch_internalConsole (config : Config.INodeLaunchConfiguration) :
  (canLaunch config = true <-> Config.console config = Config.internalConsole)
  /\ (canLaunch config = false <-> Config.console config <> Config.internalConsole).
Proof.
  unfold canLaunch.
  destruct (Config.console config); simpl; repeat split;
    intros; try reflexivity; try discriminate; try congruence.
Qed.

Section LauncherFacts.

Variable win32 : bool.
Variable f : string -> string.
Variable getNodeLaunchArgs : Config.INodeLaunchConfiguration -> list string.

(** C3: the child left by [launchProgram] carries exactly one router: the
    discard router when [outputCapture] is [Console] and the capture
    router otherwise; the listeners on the child are those of that router
    and no other. *)
Theorem launchProgram_one_router (binary : string)
    (config : Config.INodeLaunchConfiguration) (dap0 : Dap) :
  let c := wiredChild (snd (launchProgram win32 f getNodeLaunchArgs binary config dap0)) in
  let isConsole := Config.OutputSource_eqb (Config.outputCapture config) Config.Console in
  discardAttached c = isConsole
  /\ captureAttached c = negb isConsole
  /\ xorb (captureAttached c) (discardAttached c) = true
  /\ listenersOf c
     = if isConsole
       then ([], [ErrLineReader], [OnError], [OnExit])
       else ([ConsumeStdStreamData "stdout"], [ConsumeStdStreamData "stderr"], [], []).
Proof.
  unfold launchProgram. simpl.
  destruct (Config.OutputSource_eqb (Config.outputCapture config) Config.Console);
    simpl; repeat split; reflexivity.
Qed.

End LauncherFacts.

(** ** The discard router *)

Section DiscardFacts.

Variable toString : Buffer -> string.

Ltac open_state st :=
  let d := fresh "d" in
  let so := fresh "so" in
  let ls := fresh "ls" in
  let fl := fresh "fl" in
  let el := fresh "el" in
  let xl := fresh "xl" in
  let b := fresh "b" in
  destruct st as [d [so [ls fl] el xl] b];
  unfold routed, buffering in *; simpl in *.

Lemma routed_discardStdio (dap0 : Dap) : routed (discardStdio dap0 spawn).
Proof. repeat split. Qed.

(** *** One event on a routed state *)

Lemma deliver_chunk_buffering (st : DiscardStdio) (chunks : list Buffer) (data : Buffer) :
  routed st ->
  preLaunchBuffer st = Some chunks ->
  Buf.includes data delimiter = false ->
  deliver toString (StderrData data) st
  = mkDiscard (dap st) (child st) (Some (chunks ++ [data])).
Proof.
  intros (He & Hx & Hl) Hb Hd. open_state st. subst.
  unfold errLineReader. simpl. now rewrite Hd.
Qed.

Lemma deliver_chunk_marker (st : DiscardStdio) (chunks : list Buffer) (data : Buffer) :
  routed st ->
  preLaunchBuffer st = Some chunks ->
  Buf.includes data delimiter = true ->
  deliver toString (StderrData data) st
  = mkDiscard (dap st)
      (set_stderr (mkReadable [] (flowing (stderr (child st)))) (child st)) None.
Proof.
  intros (He & Hx & Hl) Hb Hd. open_state st. subst.
  unfold errLineReader. simpl. now rewrite Hd.
Qed.

Lemma deliver_chunk_discarded (st : DiscardStdio) (data : Buffer) :
  routed st ->
  preLaunchBuffer st = None ->
  deliver toString (StderrData data) st = st.
Proof.
  intros (He & Hx & Hl) Hb. open_state st. now subst.
Qed.

Lemma deliver_error (st : DiscardStdio) (err : JsError) :
  routed st ->
  deliver toString (ErrorEvent err) st
  = mkDiscard (dap st ++ flushed toString st ++ [mkOutput "stderr" (stackOrMessage err)])
      (child st) (preLaunchBuffer st).
Proof.
  intros (He & Hx & Hl). open_state st. subst.
  unfold onError, dumpFilter, flushed, flushEvent, dap_output.
  destruct b; simpl; [now rewrite <- app_assoc | reflexivity].
Qed.

Lemma deliver_exit_positive (st : DiscardStdio) (n : Z) :
  routed st ->
  (n > 0)%Z ->
  deliver toString (ExitEvent (Some n)) st
  = mkDiscard (dap st ++ flushed toString st ++ [exitReport n])
      (child st) (preLaunchBuffer st).
Proof.
  intros (He & Hx & Hl) Hn. open_state st. subst.
  unfold onExit, dumpFilter, flushed, flushEvent, dap_output.
  apply Z.gtb_gt in Hn. rewrite Hn.
  destruct b; simpl; [now rewrite <- app_assoc | reflexivity].
Qed.

Lemma deliver_exit_quiet (st : DiscardStdio) (code : option Z) :
  match code with Some n => (n <= 0)%Z | None => True end ->
  deliver toString (ExitEvent code) st = st.
Proof.
  intros Hc. unfold deliver, onExit.
  destruct code as [n|]; [|now destruct (Emitter.handles _ _)].
  assert ((n >? 0)%Z = false) as -> by (rewrite Z.gtb_ltb; apply Z.ltb_ge; lia).
  now destruct (Emitter.handles _ _).
Qed.

(** *** The invariant *)

Lemma routed_deliver (ev : ChildEvent) (st : DiscardStdio) :
  routed st -> routed (deliver toString ev st).
Proof.
  intros Hr. destruct ev as [data|data|err|code].
  - exact Hr.
  - destruct (preLaunchBuffer st) as [chunks|] eqn:Hb.
    + destruct (Buf.includes data delimiter) eqn:Hd.
      * rewrite (deliver_chunk_marker st chunks data Hr Hb Hd).
        destruct Hr as (He & Hx & _). now repeat split.
      * rewrite (deliver_chunk_buffering st chunks data Hr Hb Hd).
        destruct Hr as (He & Hx & Hl). unfold routed, buffering in *.
        rewrite Hb in Hl. now repeat split.
    + now rewrite (deliver_chunk_discarded st data Hr Hb).
  - rewrite (deliver_error st err Hr).
    destruct Hr as (He & Hx & Hl). now repeat split.
  - destruct code as [n|].
    + destruct (Z_gt_le_dec n 0) as [Hn|Hn].
      * rewrite (deliver_exit_positive st n Hr Hn).
        destruct Hr as (He & Hx & Hl). now repeat split.
      * now rewrite (deliver_exit_quiet st (Some n) Hn).
    + now rewrite (deliver_exit_quiet st None I).
Qed.

Lemma run_app (evs evs' : list ChildEvent) (st : DiscardStdio) :
  run toString (evs ++ evs') st = run toString evs' (run toString evs st).
Proof. apply fold_left_app. Qed.

Lemma routed_run (evs : list ChildEvent) (st : DiscardStdio) :
  routed st -> routed (run toString evs st).
Proof.
  revert st. induction evs as [|ev evs IH]; intros st Hr; simpl.
  - exact Hr.
  - apply IH, routed_deliver, Hr.
Qed.

Lemma routed_after (dap0 : Dap) (trace : list ChildEvent) :
  routed (after toString dap0 trace).
Proof. apply routed_run, routed_discardStdio. Qed.

(** *** Traces *)

(** Without a marked chunk the router stays in the state Buffering. *)
Lemma buffering_run (evs : list ChildEvent) (st : DiscardStdio) :
  routed st ->
  buffering st = true ->
  existsb marked evs = false ->
  buffering (run toString evs st) = true.
Proof.
  revert st. induction evs as [|ev evs IH]; intros st Hr Hb Hm; simpl.
  - exact Hb.
  - simpl in Hm. apply orb_false_iff in Hm as [Hev Hm].
    apply IH; [now apply routed_deliver| |exact Hm].
    unfold buffering in Hb.
    destruct (preLaunchBuffer st) as [chunks|] eqn:Hc; [|discriminate].
    destruct ev as [data|data|err|code].
    + unfold buffering. simpl. now rewrite Hc.
    + simpl in Hev.
      now rewrite (deliver_chunk_buffering st chunks data Hr Hc Hev).
    + rewrite (deliver_error st err Hr). unfold buffering. simpl. now rewrite Hc.
    + destruct code as [n|].
      * destruct (Z_gt_le_dec n 0) as [Hn|Hn].
        -- rewrite (deliver_exit_positive st n Hr Hn).
           unfold buffering. simpl. now rewrite Hc.
        -- rewrite (deliver_exit_quiet st (Some n) Hn).
           unfold buffering. now rewrite Hc.
      * rewrite (deliver_exit_quiet st None I). unfold buffering. now rewrite Hc.
Qed.

(** Once the buffer is absent, the sink only grows by the reports of the
    error and exit events, and the buffer stays absent. *)
Lemma run_discarded (evs : list ChildEvent) (st : DiscardStdio) :
  routed st ->
  preLaunchBuffer st = None ->
  run toString evs st = mkDiscard (dap st ++ reports evs) (child st) None.
Proof.
  revert st. induction evs as [|ev evs IH]; intros st Hr Hb; simpl.
  - rewrite app_nil_r. destruct st; simpl in *. now subst.
  - assert (deliver toString ev st = mkDiscard (dap st ++ report ev) (child st) None) as Hstep.
    { destruct ev as [data|data|err|code]; simpl report.
      - simpl. rewrite app_nil_r. destruct st; simpl in *. now subst.
      - rewrite (deliver_chunk_discarded st data Hr Hb), app_nil_r.
        destruct st; simpl in *. now subst.
      - rewrite (deliver_error st err Hr). unfold flushed.
        now rewrite Hb.
      - destruct code as [n|].
        + destruct (Z_gt_le_dec n 0) as [Hn|Hn].
          * rewrite (deliver_exit_positive st n Hr Hn). unfold flushed.
            rewrite Hb. apply Z.gtb_gt in Hn. now rewrite Hn.
          * rewrite (deliver_exit_quiet st (Some n) Hn).
            assert ((n >? 0)%Z = false) as -> by (rewrite Z.gtb_ltb; apply Z.ltb_ge; lia).
            rewrite app_nil_r. destruct st; simpl in *. now subst.
        + rewrite (deliver_exit_quiet st None I), app_nil_r.
          destruct st; simpl in *. now subst. }
    rewrite IH.
    + rewrite Hstep. simpl. unfold reports. simpl. now rewrite app_assoc.
    + now apply routed_deliver.
    + now rewrite Hstep.
Qed.

End DiscardFacts.

Section DiscardRouter.

Variable toString : Buffer -> string.

(** C2: the first stderr chunk that includes the marker moves the router
    from Buffering to Discarded: the buffer becomes absent,
    [errLineReader] no longer listens, and that chunk sends nothing to
    the sink; whatever events follow, the buffer stays absent, the
    listener stays removed, and the sink only receives the reports of
    error and exit events, so neither the marked chunk nor a later chunk
    is ever flushed or forwarded. *)
Theorem marker_chunk_discards (dap0 : Dap) (pre : list ChildEvent) (m : Buffer) :
  existsb marked pre = false ->
  Buf.includes m delimiter = true ->
  let before := after toString dap0 pre in
  let st := deliver toString (StderrData m) before in
  buffering before = true
  /\ buffering st = false
  /\ Emitter.listens ErrLineReader (stderr (child st)) = false
  /\ dap st = dap before
  /\ forall post : list ChildEvent,
       let st' := run toString post st in
       buffering st' = false
       /\ Emitter.listens ErrLineReader (stderr (child st')) = false
       /\ dap st' = dap before ++ reports post.
Proof.
  intros Hpre Hm before st.
  assert (routed before) as Hr by apply routed_after.
  assert (buffering before = true) as Hb.
  { apply buffering_run;
      [apply routed_discardStdio | reflexivity | exact Hpre]. }
  unfold buffering in Hb.
  destruct (preLaunchBuffer before) as [chunks|] eqn:Hc; [|discriminate].
  assert (st = mkDiscard (dap before)
                 (set_stderr (mkReadable [] (flowing (stderr (child before))))
                    (child before)) None) as Hst
    by (apply (deliver_chunk_marker toString before chunks m Hr Hc Hm)).
  assert (routed st) as Hrs by (apply routed_deliver, Hr).
  split; [unfold buffering; now rewrite Hc|].
  rewrite Hst. do 3 (split; [reflexivity|]).
  intros post st'. subst st'.
  rewrite run_discarded; [now repeat split | now rewrite <- Hst | reflexivity].
Qed.



(** C6: once the buffer is absent it stays absent under every later
    event, [dumpFilter] leaves every later state unchanged, and each
    later event adds to the sink its own report only (nothing for a
    chunk, the error text for an error, the exit line for a positive
    exit code): no error or exit event flushes buffered content again. *)
Theorem discarded_never_flushes (dap0 : Dap) (trace post : list ChildEvent) :
  preLaunchBuffer (after toString dap0 trace) = None ->
  let st := run toString post (after toString dap0 trace) in
  preLaunchBuffer st = None
  /\ dumpFilter toString st = st
  /\ flushed toString st = []
  /\ dap st = dap (after toString dap0 trace) ++ reports post
  /\ forall ev, dap (deliver toString ev st) = dap st ++ report ev.
Proof.
  intros Hnone st.
  assert (routed (after toString dap0 trace)) as Hr by apply routed_after.
  assert (routed st) as Hrs by (apply routed_run, Hr).
  assert (st = mkDiscard (dap (after toString dap0 trace) ++ reports post)
                 (child (after toString dap0 trace)) None) as Hst
    by (apply run_discarded; assumption).
  assert (preLaunchBuffer st = None) as Hb by now rewrite Hst.
  split; [exact Hb|].
  split; [unfold dumpFilter; now rewrite Hb|].
  split; [unfold flushed; now rewrite Hb|].
  split; [now rewrite Hst|].
  intros ev.
  pose proof (run_discarded toString [ev] st Hrs Hb) as Hev.
  simpl in Hev. rewrite Hev. simpl. now rewrite app_nil_r.
Qed.

(** C10: the marker is looked for in each chunk on its own: when the
    router is Buffering and two consecutive chunks arrive, neither of
    which includes the marker while their concatenation does, both
    chunks are appended to the buffer in their order, the router is
    still Buffering with [errLineReader] listening, and nothing is
    sent to the sink. *)
Theorem split_marker_is_buffered (dap0 : Dap) (trace : list ChildEvent)
    (chunks : list Buffer) (c1 c2 : Buffer) :
  preLaunchBuffer (after toString dap0 trace) = Some chunks ->
  Buf.includes c1 delimiter = false ->
  Buf.includes c2 delimiter = false ->
  Buf.includes (c1 ++ c2) delimiter = true ->
  let st := after toString dap0 trace in
  let st' := run toString [StderrData c1; StderrData c2] st in
  st' = mkDiscard (dap st) (child st) (Some (chunks ++ [c1; c2]))
  /\ buffering st' = true
  /\ Emitter.listens ErrLineReader (stderr (child st')) = true.
Proof.
  intros Hb H1 H2 _ st st'.
  assert (routed st) as Hr by apply routed_after.
  assert (st' = mkDiscard (dap st) (child st) (Some (chunks ++ [c1; c2]))) as Hst.
  { subst st'. unfold run. cbn [fold_left].
    rewrite (deliver_chunk_buffering toString st chunks c1 Hr Hb H1).
    rewrite (deliver_chunk_buffering toString _ (chunks ++ [c1]) c2); simpl;
      [now rewrite <- app_assoc | | reflexivity | exact H2].
    destruct Hr as (He & Hx & Hl). unfold routed, buffering in *. simpl.
    fold st in Hb. rewrite Hb in Hl. now repeat split. }
  split; [exact Hst|]. rewrite Hst. split; [reflexivity|]. simpl.
  destruct Hr as (_ & _ & Hl). unfold buffering in Hl. fold st in Hb.
  rewrite Hb in Hl. unfold Emitter.listens. now rewrite Hl.
Qed.

End DiscardRouter.

(** ** Concrete runs *)

Lemma marker_chunk_discards_witness :
  let pre := [StderrData (Buf.from "starting...")] in
  let m := Buf.from "[pid] Debugger attached." in
  existsb marked pre = false
  /\ Buf.includes m delimiter = true
  /\ buffering (after latin1 [] pre) = true
  /\ forall post : list ChildEvent,
       dap (run latin1 post (deliver latin1 (StderrData m) (after latin1 [] pre)))
       = reports post.
Proof.
  intros pre m.
  split; [reflexivity|]. split; [reflexivity|].
  destruct (marker_chunk_discards latin1 [] pre m eq_refl eq_refl)
    as (Hb & _ & _ & _ & Hpost).
  split; [exact Hb|].
  intros post. destruct (Hpost post) as (_ & _ & Hd). exact Hd.
Defined.

(** The run of the spec: nothing of the three chunks reaches the sink,
    whatever comes later; here an exit with code 1 follows. *)
Example late_noise_example :
  dap (after latin1 []
         [StderrData (Buf.from "starting...");
          StderrData (Buf.from "Debugger attached.");
          StderrData (Buf.from "late noise");
          ExitEvent (Some 1%Z)])
  = [mkOutput "stderr" ("Process exited with code 1" ++ crlf)].
Proof. reflexivity. Qed.



Lemma discarded_never_flushes_witness :
  let trace := [StderrData (Buf.from "starting..."); StderrData (Buf.from "Debugger attached.")] in
  let post := [ErrorEvent (mkError (Some "Error: x at y") "x"); ExitEvent (Some 2%Z)] in
  preLaunchBuffer (after latin1 [] trace) = None
  /\ dap (run latin1 post (after latin1 [] trace))
     = [mkOutput "stderr" "Error: x at y";
        mkOutput "stderr" ("Process exited with code 2" ++ crlf)].
Proof.
  intros trace post. split; [reflexivity|].
  destruct (discarded_never_flushes latin1 [] trace post eq_refl)
    as (_ & _ & _ & Hd & _).
  exact Hd.
Defined.

Lemma split_marker_is_buffered_witness :
  let c1 := Buf.from "Debugger att" in
  let c2 := Buf.from "ached." in
  Buf.includes c1 delimiter = false
  /\ Buf.includes c2 delimiter = false
  /\ Buf.includes (c1 ++ c2) delimiter = true
  /\ preLaunchBuffer (run latin1 [StderrData c1; StderrData c2] (after latin1 [] []))
     = Some [c1; c2].
Proof.
  intros c1 c2. do 3 (split; [reflexivity|]).
  destruct (split_marker_is_buffered latin1 [] [] [] c1 c2
              eq_refl eq_refl eq_refl eq_refl) as (Hst & _).
  rewrite Hst. reflexivity.
Defined.


(** * Further properties *)

(** ** The argument normalizer, on every input *)

Section NormalizerClosedForm.

Variable win32 : bool.
Variable f : string -> string.

(** The three outcomes of [formatArguments] on Windows and the one off
    Windows, in terms of its inputs. *)
Lemma formatArguments_cases (exe0 : string) (args0 : list string) (cwd0 : string) :
  formatArguments win32 f exe0 args0 cwd0
  = if win32 then
      if Str.endsWith (f exe0) ".ps1"
      then mkInvocation "powershell.exe" ("-File" :: f exe0 :: args0) false (f cwd0)
      else if Str.includes (f exe0) " " && existsb Str.hasSpace args0
           then mkInvocation (Str.quoted (f exe0)) (map quoteIfSpace args0) true (f cwd0)
           else mkInvocation (f exe0) args0 false (f cwd0)
    else mkInvocation exe0 args0 false cwd0.
Proof.
  unfold formatArguments, rewritten.
  destruct win32; [|reflexivity].
  destruct (Str.endsWith (f exe0) ".ps1"); [reflexivity|].
  cbn [negb orb].
  destruct (Str.includes (f exe0) " "); [|reflexivity].
  cbn [negb andb]. rewrite quoteLoop_spec. cbn [orb app].
  now destruct (existsb Str.hasSpace args0).
Qed.

(** X1: the result asks for a shell exactly when the platform is Windows,
    the case-rewritten executable contains a space and does not end in
    [.ps1], and some argument contains a space. *)
Theorem formatArguments_shell_iff (exe0 : string) (args0 : list string) (cwd0 : string) :
  shell (formatArguments win32 f exe0 args0 cwd0) = true
  <-> (win32 = true
       /\ Str.endsWith (f exe0) ".ps1" = false
       /\ Str.includes (f exe0) " " = true
       /\ exists a, In a args0 /\ Str.includes a " " = true).
Proof.
  rewrite formatArguments_cases.
  destruct win32; [|simpl; split; [discriminate | now intros [H _]]].
  destruct (Str.endsWith (f exe0) ".ps1");
    [simpl; split; [discriminate | now intros (_ & H & _)]|].
  destruct (Str.includes (f exe0) " ");
    [|simpl; split; [discriminate | now intros (_ & _ & H & _)]].
  cbn [andb].
  destruct (existsb Str.hasSpace args0) eqn:Hex; simpl.
  - apply existsb_exists in Hex as [a [Hin Ha]].
    split; [intros _; repeat split; now exists a | reflexivity].
  - split; [discriminate|]. intros (_ & _ & _ & a & Hin & Ha).
    assert (existsb Str.hasSpace args0 = true) as Hc
      by (apply existsb_exists; now exists a).
    congruence.
Qed.

(** X2: quoting is all or nothing.  Without a shell the result is the
    rewritten executable and arguments with no quote added, also when
    arguments contain spaces; with a shell the executable is wrapped in
    double quotes (the character of code 34 before it and after it) and
    each argument is wrapped in the same way exactly when it contains a
    space. *)
Theorem formatArguments_all_or_nothing (exe0 : string) (args0 : list string)
    (cwd0 : string) :
  let r := formatArguments win32 f exe0 args0 cwd0 in
  let q := String "034" EmptyString in
  let '(exe1, args1, cwd1) := rewritten win32 f exe0 args0 cwd0 in
  r = if shell r
      then mkInvocation (q ++ exe1 ++ q)
             (map (fun a => if Str.includes a " " then (q ++ a ++ q)%string else a) args1)
             true cwd1
      else mkInvocation exe1 args1 false cwd1.
Proof.
  cbv zeta. rewrite formatArguments_cases. unfold rewritten.
  destruct win32; [|reflexivity].
  destruct (Str.endsWith (f exe0) ".ps1"); [reflexivity|].
  rewrite <- (map_ext _ _ quoteIfSpace_spelled args0), <- (quoted_spelled (f exe0)).
  now destruct (Str.includes (f exe0) " " && existsb Str.hasSpace args0).
Qed.

(** X3: the working directory is never quoted and depends on nothing but
    the platform: it is case-rewritten on Windows and returned as given
    elsewhere. *)
Theorem formatArguments_cwd (exe0 : string) (args0 : list string) (cwd0 : string) :
  cwd (formatArguments win32 f exe0 args0 cwd0) = if win32 then f cwd0 else cwd0.
Proof.
  rewrite formatArguments_cases.
  destruct win32; [|reflexivity].
  destruct (Str.endsWith (f exe0) ".ps1"); [reflexivity|].
  now destruct (Str.includes (f exe0) " " && existsb Str.hasSpace args0).
Qed.

Lemma Forall2_quoteIfSpace (l : list string) :
  Forall2 (fun a b => b = a
                      \/ b = (String "034" EmptyString ++ a ++ String "034" EmptyString)%string)
    l (map quoteIfSpace l).
Proof.
  induction l as [|a l IH]; simpl; constructor; [|exact IH].
  unfold quoteIfSpace. destruct (Str.includes a " "); [right | left]; reflexivity.
Qed.

Lemma Forall2_same (l : list string) :
  Forall2 (fun a b => b = a
                      \/ b = (String "034" EmptyString ++ a ++ String "034" EmptyString)%string)
    l l.
Proof. induction l as [|a l IH]; constructor; [now left | exact IH]. Qed.

(** X4: no argument is dropped, added or moved.  The returned arguments
    are, on Windows for a PowerShell script, [-File] and the script path,
    and then in every case one argument for each argument given, in the
    same order, which is the argument given or that argument wrapped in
    double quotes; so the returned list is as long as the given one, plus
    two for a PowerShell script on Windows. *)
Theorem formatArguments_args_kept (exe0 : string) (args0 : list string)
    (cwd0 : string) :
  let isScript := win32 && Str.endsWith (f exe0) ".ps1" in
  let q := String "034" EmptyString in
  exists rest,
    args (formatArguments win32 f exe0 args0 cwd0)
    = (if isScript then ["-File"; f exe0] else []) ++ rest
    /\ Forall2 (fun a b => b = a \/ b = (q ++ a ++ q)%string) args0 rest
    /\ List.length (args (formatArguments win32 f exe0 args0 cwd0))
       = (List.length args0 + if isScript then 2 else 0)%nat.
Proof.
  cbv zeta. rewrite formatArguments_cases.
  destruct win32; cbn [andb].
  - destruct (Str.endsWith (f exe0) ".ps1").
    + exists args0. split; [reflexivity|].
      split; [apply Forall2_same | simpl; lia].
    + destruct (Str.includes (f exe0) " " && existsb Str.hasSpace args0).
      * exists (map quoteIfSpace args0). split; [reflexivity|].
        split; [apply Forall2_quoteIfSpace | simpl; rewrite length_map; lia].
      * exists args0. split; [reflexivity|].
        split; [apply Forall2_same | simpl; lia].
  - exists args0. split; [reflexivity|].
    split; [apply Forall2_same | simpl; lia].
Qed.

End NormalizerClosedForm.

(** X5: on Windows, an executable whose case-rewritten path has no space
    and is no PowerShell script is run without a shell and with the
    arguments as given, also when arguments contain spaces. *)
Theorem formatArguments_windows_fast_path (f : string -> string) (exe0 : string)
    (args0 : list string) (cwd0 : string) :
  Str.endsWith (f exe0) ".ps1" = false ->
  Str.includes (f exe0) " " = false ->
  formatArguments true f exe0 args0 cwd0 = mkInvocation (f exe0) args0 false (f cwd0).
Proof.
  intros Hps Hsp. now rewrite formatArguments_cases, Hps, Hsp.
Qed.

Lemma formatArguments_windows_fast_path_witness :
  formatArguments true platformPathToPreferredCase_win32
    "c:\node\node.exe" ["--inspect"; "my script.js"] "c:\work dir"
  = mkInvocation "C:\node\node.exe" ["--inspect"; "my script.js"] false "C:\work dir".
Proof.
  apply (formatArguments_windows_fast_path platformPathToPreferredCase_win32
           "c:\node\node.exe" ["--inspect"; "my script.js"] "c:\work dir");
    reflexivity.
Defined.

(** ** Quoting loses nothing *)

Lemma hasSpace_cons (c : ascii) (s : string) :
  Str.hasSpace (String c s) = Ascii.eqb c " " || Str.hasSpace s.
Proof.
  unfold Str.hasSpace. cbn [Str.includes String.prefix].
  destruct (ascii_dec " " c) as [He|Hne].
  - subst c. now destruct s.
  - assert (Ascii.eqb c " " = false) as ->
      by (apply Ascii.eqb_neq; congruence).
    reflexivity.
Qed.

Lemma hasSpace_app (a b : string) :
  Str.hasSpace (a ++ b) = Str.hasSpace a || Str.hasSpace b.
Proof.
  induction a as [|c a IH]; [reflexivity|].
  cbn [String.append]. now rewrite !hasSpace_cons, IH, orb_assoc.
Qed.

Lemma hasSpace_quoted (a : string) : Str.hasSpace (Str.quoted a) = Str.hasSpace a.
Proof.
  unfold Str.quoted. rewrite hasSpace_cons, hasSpace_app.
  change (Str.hasSpace (String Str.dquote EmptyString)) with false.
  change (Ascii.eqb Str.dquote " ") with false.
  now rewrite orb_false_r.
Qed.

Lemma hasSpace_quoteIfSpace (a : string) :
  Str.hasSpace (quoteIfSpace a) = Str.hasSpace a.
Proof.
  unfold quoteIfSpace. fold (Str.hasSpace a).
  destruct (Str.hasSpace a) eqn:Ha; [now rewrite hasSpace_quoted | exact Ha].
Qed.

Lemma length_append (a b : string) :
  String.length (a ++ b) = (String.length a + String.length b)%nat.
Proof. induction a as [|c a IH]; simpl; [reflexivity | now rewrite IH]. Qed.

Lemma append_inj_l (a b s : string) : (a ++ s = b ++ s)%string -> a = b.
Proof.
  revert b. induction a as [|c a IH]; intros [|d b] H; simpl in H.
  - reflexivity.
  - apply (f_equal String.length) in H. simpl in H.
    rewrite length_append in H. lia.
  - apply (f_equal String.length) in H. simpl in H.
    rewrite length_append in H. lia.
  - injection H as Hc Hs. subst d. f_equal. now apply IH.
Qed.

Lemma quoted_inj (a b : string) : Str.quoted a = Str.quoted b -> a = b.
Proof.
  unfold Str.quoted. intros H. injection H as H. now apply append_inj_l in H.
Qed.

Lemma quoteIfSpace_inj (a b : string) : quoteIfSpace a = quoteIfSpace b -> a = b.
Proof.
  intros H.
  pose proof (f_equal Str.hasSpace H) as Hs.
  rewrite !hasSpace_quoteIfSpace in Hs.
  unfold quoteIfSpace in H. fold (Str.hasSpace a) (Str.hasSpace b) in H.
  rewrite <- Hs in H.
  destruct (Str.hasSpace a); [now apply quoted_inj | exact H].
Qed.

Lemma map_quoteIfSpace_inj (l1 l2 : list string) :
  map quoteIfSpace l1 = map quoteIfSpace l2 -> l1 = l2.
Proof.
  revert l2. induction l1 as [|a l1 IH]; intros [|b l2] H; simpl in H;
    try discriminate; [reflexivity|].
  injection H as Ha Hl. f_equal; [now apply quoteIfSpace_inj | now apply IH].
Qed.

Lemma existsb_hasSpace_map_quoteIfSpace (l : list string) :
  existsb Str.hasSpace (map quoteIfSpace l) = existsb Str.hasSpace l.
Proof.
  induction l as [|a l IH]; simpl; [reflexivity|].
  now rewrite hasSpace_quoteIfSpace, IH.
Qed.

(** X6: the arguments given can be told from the arguments returned: for
    one platform and one executable, two argument lists that are normalized
    to the same list are the same list. *)
Theorem formatArguments_args_injective (win32 : bool) (f : string -> string)
    (exe0 : string) (args1 args2 : list string) (cwd1 cwd2 : string) :
  args (formatArguments win32 f exe0 args1 cwd1)
  = args (formatArguments win32 f exe0 args2 cwd2) ->
  args1 = args2.
Proof.
  rewrite !formatArguments_cases.
  destruct win32; [|now simpl].
  destruct (Str.endsWith (f exe0) ".ps1"); [simpl; congruence|].
  destruct (Str.includes (f exe0) " "); [|now simpl].
  cbn [andb].
  destruct (existsb Str.hasSpace args1) eqn:H1,
           (existsb Str.hasSpace args2) eqn:H2; simpl; intros H.
  - now apply map_quoteIfSpace_inj.
  - rewrite <- H, existsb_hasSpace_map_quoteIfSpace in H2. congruence.
  - rewrite H, existsb_hasSpace_map_quoteIfSpace in H1. congruence.
  - exact H.
Qed.

Lemma formatArguments_args_injective_witness :
  args (formatArguments true platformPathToPreferredCase_win32
          "C:\a b\x.exe" ["my arg"; "-v"] "C:\w")
  = args (formatArguments true platformPathToPreferredCase_win32
            "C:\a b\x.exe" ["my arg"; "-v"] "D:\other")
  /\ ["my arg"; "-v"] = ["my arg"; "-v"].
Proof.
  split; [reflexivity|].
  apply (formatArguments_args_injective true platformPathToPreferredCase_win32
           "C:\a b\x.exe" ["my arg"; "-v"] ["my arg"; "-v"] "C:\w" "D:\other").
  reflexivity.
Defined.

(** ** The discard router over whole traces *)

Section DiscardTraces.

Variable toString : Buffer -> string.

(** What one event does to the buffer. *)
Lemma buffer_deliver (ev : ChildEvent) (st : DiscardStdio) :
  routed st ->
  preLaunchBuffer (deliver toString ev st)
  = match preLaunchBuffer st with
    | Some chunks =>
        if marked ev then None else Some (chunks ++ stderrChunks [ev])
    | None => None
    end.
Proof.
  intros Hr.
  destruct (preLaunchBuffer st) as [chunks|] eqn:Hb.
  - destruct ev as [data|data|err|code]; simpl marked; simpl stderrChunks.
    + simpl. now rewrite app_nil_r.
    + destruct (Buf.includes data delimiter) eqn:Hd.
      * now rewrite (deliver_chunk_marker toString st chunks data Hr Hb Hd).
      * now rewrite (deliver_chunk_buffering toString st chunks data Hr Hb Hd).
    + rewrite (deliver_error toString st err Hr). simpl. now rewrite app_nil_r.
    + rewrite app_nil_r. destruct code as [n|].
      * destruct (Z_gt_le_dec n 0) as [Hn|Hn].
        -- now rewrite (deliver_exit_positive toString st n Hr Hn).
        -- now rewrite (deliver_exit_quiet toString st (Some n) Hn).
      * now rewrite (deliver_exit_quiet toString st None I).
  - pose proof (run_discarded toString [ev] st Hr Hb) as H.
    simpl in H. now rewrite H.
Qed.

Lemma buffer_run (evs : list ChildEvent) (st : DiscardStdio) :
  routed st ->
  preLaunchBuffer (run toString evs st)
  = match preLaunchBuffer st with
    | Some chunks =>
        if existsb marked evs then None else Some (chunks ++ stderrChunks evs)
    | None => None
    end.
Proof.
  revert st. induction evs as [|ev evs IH]; intros st Hr.
  - simpl. destruct (preLaunchBuffer st); [now rewrite app_nil_r | reflexivity].
  - cbn [run fold_left]. fold (run toString evs (deliver toString ev st)).
    rewrite IH by now apply routed_deliver.
    rewrite (buffer_deliver ev st Hr).
    destruct (preLaunchBuffer st) as [chunks|]; [|reflexivity].
    cbn [existsb]. destruct (marked ev); [reflexivity|]. cbn [orb].
    destruct (existsb marked evs); [reflexivity|].
    change (ev :: evs) with ([ev] ++ evs).
    unfold stderrChunks. now rewrite flat_map_app, app_assoc.
Qed.

(** The buffer on a freshly wired child. *)
Lemma buffer_of_trace (dap0 : Dap) (trace : list ChildEvent) :
  preLaunchBuffer (run toString trace (discardStdio dap0 spawn))
  = if existsb marked trace then None else Some (stderrChunks trace).
Proof.
  rewrite buffer_run by apply routed_discardStdio. reflexivity.
Qed.

(** X7: the buffer of the router is decided by the stderr chunks alone:
    it is absent as soon as one chunk included the marker, and otherwise it
    holds every stderr chunk received so far, in arrival order.  Stdout
    data, error events and exit events never change it; in particular a
    flush does not empty it. *)
Theorem buffer_after (dap0 : Dap) (trace : list ChildEvent) :
  preLaunchBuffer (after toString dap0 trace)
  = if existsb marked trace then None else Some (stderrChunks trace).
Proof.
  unfold after.
  rewrite (buffer_run trace (discardStdio dap0 spawn) (routed_discardStdio dap0)).
  reflexivity.
Qed.

(** One event leaves the stdout side and the flowing flag of stderr as
    they are. *)
Lemma streams_deliver (ev : ChildEvent) (st : DiscardStdio) :
  routed st ->
  stdout (child (deliver toString ev st)) = stdout (child st)
  /\ flowing (stderr (child (deliver toString ev st))) = flowing (stderr (child st)).
Proof.
  intros Hr.
  destruct ev as [data|data|err|code].
  - now split.
  - destruct (preLaunchBuffer st) as [chunks|] eqn:Hb.
    + destruct (Buf.includes data delimiter) eqn:Hd.
      * now rewrite (deliver_chunk_marker toString st chunks data Hr Hb Hd).
      * now rewrite (deliver_chunk_buffering toString st chunks data Hr Hb Hd).
    + now rewrite (deliver_chunk_discarded toString st data Hr Hb).
  - now rewrite (deliver_error toString st err Hr).
  - destruct code as [n|].
    + destruct (Z_gt_le_dec n 0) as [Hn|Hn].
      * now rewrite (deliver_exit_positive toString st n Hr Hn).
      * now rewrite (deliver_exit_quiet toString st (Some n) Hn).
    + now rewrite (deliver_exit_quiet toString st None I).
Qed.

Lemma streams_run (evs : list ChildEvent) (st : DiscardStdio) :
  routed st ->
  stdout (child (run toString evs st)) = stdout (child st)
  /\ flowing (stderr (child (run toString evs st))) = flowing (stderr (child st)).
Proof.
  revert st. induction evs as [|ev evs IH]; intros st Hr; [now split|].
  cbn [run fold_left]. fold (run toString evs (deliver toString ev st)).
  destruct (IH (deliver toString ev st) (routed_deliver toString ev st Hr)) as [H1 H2].
  destruct (streams_deliver ev st Hr) as [H3 H4].
  split; congruence.
Qed.

(** X8: the child of the discard router after any trace: the error and
    exit listeners stay registered for good, [errLineReader] is registered
    until the first chunk with the marker and never again, nothing ever
    listens to stdout, and both streams stay in flowing mode. *)
Theorem child_after (dap0 : Dap) (trace : list ChildEvent) :
  child (after toString dap0 trace)
  = mkChild (mkReadable [] true)
      (mkReadable (if existsb marked trace then [] else [ErrLineReader]) true)
      [OnError] [OnExit].
Proof.
  pose proof (routed_after toString dap0 trace) as (He & Hx & Hl).
  pose proof (buffer_of_trace dap0 trace) as Hb.
  fold (after toString dap0 trace) in Hb.
  destruct (streams_run trace (discardStdio dap0 spawn) (routed_discardStdio dap0))
    as [Hso Hfl].
  fold (after toString dap0 trace) in Hso, Hfl. simpl in Hso, Hfl.
  unfold buffering in Hl. rewrite Hb in Hl.
  destruct (child (after toString dap0 trace)) as [so [ls fl] el xl].
  simpl in *. subst.
  now destruct (existsb marked trace).
Qed.

(** The sink only grows, by events of category [stderr]. *)
Lemma sink_run (evs : list ChildEvent) (st : DiscardStdio) :
  routed st ->
  exists outs, dap (run toString evs st) = dap st ++ outs /\ Forall isStderr outs.
Proof.
  revert st. induction evs as [|ev evs IH]; intros st Hr.
  - exists []. now rewrite app_nil_r.
  - cbn [run fold_left]. fold (run toString evs (deliver toString ev st)).
    destruct (IH (deliver toString ev st) (routed_deliver toString ev st Hr))
      as (outs & Hd & Hall).
    assert (exists o1, dap (deliver toString ev st) = dap st ++ o1 /\ Forall isStderr o1)
      as (o1 & Hd1 & Hall1).
    { destruct ev as [data|data|err|code].
      - exists []. now rewrite app_nil_r.
      - exists []. rewrite app_nil_r.
        destruct (preLaunchBuffer st) as [chunks|] eqn:Hb.
        + destruct (Buf.includes data delimiter) eqn:Hm.
          * now rewrite (deliver_chunk_marker toString st chunks data Hr Hb Hm).
          * now rewrite (deliver_chunk_buffering toString st chunks data Hr Hb Hm).
        + now rewrite (deliver_chunk_discarded toString st data Hr Hb).
      - rewrite (deliver_error toString st err Hr). eexists. split; [reflexivity|].
        apply Forall_app. split; [|now repeat constructor].
        unfold flushed. destruct (preLaunchBuffer st); now repeat constructor.
      - destruct code as [n|].
        + destruct (Z_gt_le_dec n 0) as [Hn|Hn].
          * rewrite (deliver_exit_positive toString st n Hr Hn).
            eexists. split; [reflexivity|].
            apply Forall_app. split; [|now repeat constructor].
            unfold flushed. destruct (preLaunchBuffer st); now repeat constructor.
          * rewrite (deliver_exit_quiet toString st (Some n) Hn).
            exists []. now rewrite app_nil_r.
        + rewrite (deliver_exit_quiet toString st None I).
          exists []. now rewrite app_nil_r. }
    exists (o1 ++ outs). rewrite Hd, Hd1, app_assoc. split; [reflexivity|].
    apply Forall_app. now split.
Qed.

(** X9: the router never takes anything back from the sink and never
    writes another category: after any trace the sink is what it was at
    wiring time followed by events that all have category [stderr]. *)
Theorem sink_after (dap0 : Dap) (trace : list ChildEvent) :
  exists outs,
    dap (after toString dap0 trace) = dap0 ++ outs /\ Forall isStderr outs.
Proof.
  apply (sink_run trace (discardStdio dap0 spawn)), routed_discardStdio.
Qed.

End DiscardTraces.

(** ** Where the marker is found *)

Lemma startsWith_iff (b p : Buffer) :
  Buf.startsWith b p = true <-> exists r, b = p ++ r.
Proof.
  revert b. induction p as [|x p IH]; intros b.
  - split; [intros _; now exists b | intros _; now destruct b].
  - destruct b as [|y b]; cbn [Buf.startsWith].
    + split; [discriminate | intros [r Hr]; discriminate].
    + rewrite andb_true_iff, IH. split.
      * intros [Hxy [r ->]]. apply Byte.byte_dec_bl in Hxy. subst y. now exists r.
      * intros [r Hr]. injection Hr as -> ->.
        split; [now apply Byte.byte_dec_lb | now exists r].
Qed.

(** [Buf.includes b p] holds exactly when [p] occurs in [b] as a run of
    consecutive bytes. *)
Lemma includes_iff (b p : Buffer) :
  Buf.includes b p = true <-> exists l r, b = l ++ p ++ r.
Proof.
  induction b as [|y b IH]; cbn [Buf.includes]; rewrite orb_true_iff.
  - split.
    + intros [H|H]; [|discriminate].
      apply startsWith_iff in H as [r Hr]. now exists [], r.
    + intros (l & r & H). left. apply startsWith_iff.
      destruct l as [|z l]; [now exists r | discriminate].
  - split.
    + intros [H|H].
      * apply startsWith_iff in H as [r Hr]. now exists [], r.
      * apply IH in H as (l & r & ->). now exists (y :: l), r.
    + intros (l & r & H). destruct l as [|z l].
      * left. apply startsWith_iff. now exists r.
      * right. injection H as -> ->. apply IH. now exists l, r.
Qed.

Lemma marked_stderrChunks (evs : list ChildEvent) :
  existsb marked evs = true -> stderrChunks evs <> [].
Proof.
  induction evs as [|ev evs IH]; simpl; [discriminate|].
  destruct ev; simpl; try exact IH. discriminate.
Qed.

Section DiscardEdges.

Variable toString : Buffer -> string.

(** X10: the router is Discarded after a trace exactly when one of its
    stderr chunks carried the bytes of [Debugger attached.] somewhere
    inside it, after any bytes and before any bytes. *)
Theorem discarded_iff_marker_inside (dap0 : Dap) (trace : list ChildEvent) :
  preLaunchBuffer (after toString dap0 trace) = None
  <-> exists l r : Buffer, In (StderrData (l ++ delimiter ++ r)) trace.
Proof.
  unfold after. rewrite buffer_of_trace. split.
  - destruct (existsb marked trace) eqn:Hm; [intros _|discriminate].
    apply existsb_exists in Hm as (ev & Hin & Hev).
    destruct ev as [data|data|err|code]; try discriminate.
    simpl in Hev. apply includes_iff in Hev as (l & r & ->). now exists l, r.
  - intros (l & r & Hin).
    assert (existsb marked trace = true) as ->; [|reflexivity].
    apply existsb_exists. exists (StderrData (l ++ delimiter ++ r)).
    split; [exact Hin|]. simpl. apply includes_iff. now exists l, r.
Qed.

(** X11: a flush does not consume the buffer.  While the router is
    Buffering, an error event followed by an exit with a positive code
    sends the buffered text twice: once before the error text and once
    more before the exit line. *)
Theorem error_then_exit_flushes_twice (dap0 : Dap) (trace : list ChildEvent)
    (chunks : list Buffer) (err : JsError) (n : Z) :
  preLaunchBuffer (after toString dap0 trace) = Some chunks ->
  (n > 0)%Z ->
  dap (run toString [ErrorEvent err; ExitEvent (Some n)] (after toString dap0 trace))
  = dap (after toString dap0 trace)
    ++ [mkOutput "stderr" (toString (Buf.concat chunks));
        mkOutput "stderr" (stackOrMessage err);
        mkOutput "stderr" (toString (Buf.concat chunks));
        exitReport n].
Proof.
  intros Hb Hn.
  pose proof (routed_after toString dap0 trace) as Hr.
  unfold run. cbn [fold_left].
  rewrite (deliver_exit_positive toString _ n
             (routed_deliver toString (ErrorEvent err) _ Hr) Hn).
  rewrite (deliver_error toString _ err Hr).
  unfold flushed, flushEvent. cbn [dap preLaunchBuffer]. rewrite Hb.
  now rewrite <- !app_assoc.
Qed.

(** X12: an empty buffer is still a buffer.  When no stderr chunk has
    arrived, an error event sends a flush event all the same, whose text
    is the decoding of zero bytes, and then the error text. *)
Theorem error_with_empty_buffer (dap0 : Dap) (trace : list ChildEvent)
    (err : JsError) :
  stderrChunks trace = [] ->
  dap (deliver toString (ErrorEvent err) (after toString dap0 trace))
  = dap (after toString dap0 trace)
    ++ [mkOutput "stderr" (toString []); mkOutput "stderr" (stackOrMessage err)].
Proof.
  intros Hnone.
  pose proof (buffer_of_trace toString dap0 trace) as Hb.
  fold (after toString dap0 trace) in Hb.
  destruct (existsb marked trace) eqn:Hm;
    [now apply marked_stderrChunks in Hm|].
  rewrite Hnone in Hb.
  rewrite (deliver_error toString _ err (routed_after toString dap0 trace)).
  unfold flushed, flushEvent. cbn [dap]. now rewrite Hb.
Qed.

End DiscardEdges.

Lemma error_then_exit_flushes_twice_witness :
  let trace := [StderrData (Buf.from "Cannot find module")] in
  (3 > 0)%Z
  /\ dap (run latin1 [ErrorEvent (mkError None "failed"); ExitEvent (Some 3%Z)]
            (after latin1 [] trace))
     = [mkOutput "stderr" "Cannot find module";
        mkOutput "stderr" "failed";
        mkOutput "stderr" "Cannot find module";
        mkOutput "stderr" ("Process exited with code 3" ++ crlf)].
Proof.
  intros trace. split; [lia|].
  apply (error_then_exit_flushes_twice latin1 [] trace
           [Buf.from "Cannot find module"] (mkError None "failed") 3%Z);
    [reflexivity | lia].
Defined.

Lemma error_with_empty_buffer_witness :
  let trace := [StdoutData (Buf.from "hello"); ExitEvent (Some 0%Z)] in
  stderrChunks trace = []
  /\ dap (deliver latin1 (ErrorEvent (mkError None "spawn ENOENT")) (after latin1 [] trace))
     = [mkOutput "stderr" EmptyString; mkOutput "stderr" "spawn ENOENT"].
Proof.
  intros trace. split; [reflexivity|].
  apply (error_with_empty_buffer latin1 [] trace (mkError None "spawn ENOENT")).
  reflexivity.
Defined.

(** ** The exit line *)

Lemma numberToString_parse (n : Z) :
  NilZero.int_of_string (numberToString n) = Some (Z.to_int n).
Proof.
  unfold numberToString. apply NilZero.isi.
  - destruct n as [|p|p]; simpl; try discriminate.
    intros [= H]. now apply DecimalPos.Unsigned.to_uint_nonnil in H.
  - destruct n as [|p|p]; simpl; try discriminate.
    intros [= H]. now apply DecimalPos.Unsigned.to_uint_nonnil in H.
Qed.

Lemma numberToString_inj (n m : Z) : numberToString n = numberToString m -> n = m.
Proof.
  intros H. apply DecimalZ.to_int_inj.
  pose proof (numberToString_parse n) as Hn.
  rewrite H, numberToString_parse in Hn. congruence.
Qed.

Lemma exitReport_inj (n m : Z) : exitReport n = exitReport m -> n = m.
Proof.
  unfold exitReport. cbn [String.append]. intros H. injection H as H.
  apply append_inj_l in H. now apply numberToString_inj.
Qed.

(** X13: the exit line tells the exit code: in one state of the router,
    exits with two positive codes leave the same sink only when the two
    codes are the same. *)
Theorem exit_line_identifies_code (toString : Buffer -> string) (dap0 : Dap)
    (trace : list ChildEvent) (n m : Z) :
  (n > 0)%Z ->
  (m > 0)%Z ->
  dap (deliver toString (ExitEvent (Some n)) (after toString dap0 trace))
  = dap (deliver toString (ExitEvent (Some m)) (after toString dap0 trace)) ->
  n = m.
Proof.
  intros Hn Hm.
  pose proof (routed_after toString dap0 trace) as Hr.
  rewrite (deliver_exit_positive toString _ n Hr Hn).
  rewrite (deliver_exit_positive toString _ m Hr Hm).
  cbn [dap]. intros H.
  apply app_inv_head in H. apply app_inv_head in H.
  apply exitReport_inj. congruence.
Qed.

Lemma exit_line_identifies_code_witness :
  (7 > 0)%Z
  /\ dap (deliver latin1 (ExitEvent (Some 7%Z)) (after latin1 [] []))
     = dap (deliver latin1 (ExitEvent (Some 7%Z)) (after latin1 [] []))
  /\ 7%Z = 7%Z.
Proof.
  split; [lia|]. split; [reflexivity|].
  apply (exit_line_identifies_code latin1 [] [] 7%Z 7%Z); [lia | lia | reflexivity].
Defined.

(** ** The launcher and its routers together *)

Section LaunchAndRoute.

Variable win32 : bool.
Variable f : string -> string.
Variable getNodeLaunchArgs : Config.INodeLaunchConfiguration -> list string.

(** X14: whichever router is wired, [launchProgram] leaves both stdout
    and stderr of the child in flowing mode. *)
Theorem launchProgram_resumes_streams (binary : string)
    (config : Config.INodeLaunchConfiguration) (dap0 : Dap) :
  let c := wiredChild (snd (launchProgram win32 f getNodeLaunchArgs binary config dap0)) in
  flowing (stdout c) = true /\ flowing (stderr c) = true.
Proof.
  unfold launchProgram. simpl.
  destruct (Config.OutputSource_eqb (Config.outputCapture config) Config.Console);
    simpl; now split.
Qed.



End LaunchAndRoute.



(** ** A process that neither fails nor exits with a positive code *)

Section Quiet.

Variable toString : Buffer -> string.

Lemma quiet_deliver (ev : ChildEvent) (st : DiscardStdio) :
  routed st -> report ev = [] -> dap (deliver toString ev st) = dap st.
Proof.
  intros Hr Hq. destruct ev as [data|data|err|code].
  - reflexivity.
  - destruct (preLaunchBuffer st) as [chunks|] eqn:Hb.
    + destruct (Buf.includes data delimiter) eqn:Hd.
      * now rewrite (deliver_chunk_marker toString st chunks data Hr Hb Hd).
      * now rewrite (deliver_chunk_buffering toString st chunks data Hr Hb Hd).
    + now rewrite (deliver_chunk_discarded toString st data Hr Hb).
  - discriminate.
  - destruct code as [n|].
    + simpl in Hq. destruct (n >? 0)%Z eqn:Hn; [discriminate|].
      rewrite (deliver_exit_quiet toString st (Some n)); [reflexivity|].
      rewrite Z.gtb_ltb in Hn. apply Z.ltb_ge in Hn. exact Hn.
    + now rewrite (deliver_exit_quiet toString st None I).
Qed.

(** X16: stderr data alone never reaches the sink.  As long as the trace
    holds no error event and no exit with a positive code, the sink is
    what it was at wiring time, whatever was written to stdout and stderr
    and whether or not the marker was seen: the chunks buffered before
    the marker are dropped with the buffer. *)
Theorem quiet_trace_sends_nothing (dap0 : Dap) (trace : list ChildEvent) :
  Forall (fun ev => report ev = []) trace ->
  dap (after toString dap0 trace) = dap0.
Proof.
  intros Hq. unfold after.
  assert (forall st, routed st -> dap (run toString trace st) = dap st) as Hrun.
  { induction Hq as [|ev evs Hev Hevs IH]; intros st Hr; [reflexivity|].
    cbn [run fold_left]. fold (run toString evs (deliver toString ev st)).
    rewrite IH by now apply routed_deliver.
    now apply quiet_deliver. }
  now rewrite Hrun by apply routed_discardStdio.
Qed.

End Quiet.

Lemma quiet_trace_sends_nothing_witness :
  let trace := [StderrData (Buf.from "starting...");
                StderrData (Buf.from "Debugger attached.");
                StderrData (Buf.from "late noise");
                ExitEvent (Some 0%Z)] in
  Forall (fun ev => report ev = []) trace
  /\ dap (after latin1 [mkOutput "console" "node app.js"] trace)
     = [mkOutput "console" "node app.js"].
Proof.
  intros trace.
  assert (Forall (fun ev => report ev = []) trace) as Hq
    by (repeat constructor).
  split; [exact Hq|].
  exact (quiet_trace_sends_nothing latin1 [mkOutput "console" "node app.js"] trace Hq).
Defined.
